(** * soap::base::ObjectFactory — a keyed object factory

    Shallow embedding of [src/soap/base/objectfactory.hpp] and the properties
    of its registration and creation protocol.

    - The free store is a finite map from addresses to objects; [new T()]
      takes an address that is not in use and runs the default constructor
      of [T], which completes or throws.
    - [std::map<key_t, creator_t>] is a [gmap]: two keys that [std::less]
      does not order are the same key. [std::map::insert] keeps an existing
      entry and reports whether it inserted.
    - A creator is a pointer to a function [T* ()]: it is null, or it points
      to a function whose body returns a pointer, throws, makes objects with
      [new], and calls [Register] and [IsRegistered] of the factory that
      calls it. Bodies that call [Create] themselves, which can recurse
      without end, and bodies that reach the factory of other template
      arguments are not covered.
    - A member function is a computation over the factory it is called on
      and the free store; [throw] ends it with the state reached so far, and
      a call through a null pointer ends it with undefined behaviour.
    - [Instance()] is one function-local static per pair of template
      arguments, constructed by the first call. *)

From stdpp Require Import gmap strings fin_maps pretty.

(** ** Definitions *)

Inductive exception := runtime_error (what : string).

(** How a call ends. *)
Inductive outcome (A : Type) :=
  | Returned (a : A)
  | Thrown (e : exception)
  | Undefined.
Global Arguments Returned {A} a.
Global Arguments Thrown {A} e.
Global Arguments Undefined {A}.

(** What the default constructor [T::T()] does when [new T()] runs it. *)
Inductive construction := constructs | throws (e : exception).

(** The classes of a program, each with its default constructor. *)
Class Constructible (class_t : Type) := constructor : class_t → construction.

Section Definitions.

(** Class names of the program, and [std::is_base_of<parent, T>]: a [T*]
    converts to a [parent*]. *)
Context {class_t : Type} `{Constructible class_t}.
Context (is_base_of : class_t → class_t → bool).

(** *** Objects, pointers, the free store *)

(** An object created by [new T()]: its dynamic type is [T]. *)
Record object := Object { dynamic_type : class_t }.

Inductive pointer := nullptr | Ptr (a : positive).

Local Abbreviation heap := (gmap positive object).

Definition deref (h : heap) (p : pointer) : option object :=
  match p with
  | nullptr => None
  | Ptr a => h !! a
  end.

(** [p] is a valid [T*]: it points to a live object whose class derives
    from [T]. *)
Definition points_to (T : class_t) (h : heap) (p : pointer) : Prop :=
  ∃ o, deref h p = Some o ∧ is_base_of T (dynamic_type o) = true.

(** [new T()]: when [T::T()] throws, the storage is given back and the
    exception goes on to the caller. *)
Definition new_object (T : class_t) (h : heap) : outcome pointer * heap :=
  match constructor T with
  | constructs => let a := fresh (dom h) in (Returned (Ptr a), <[a := Object T]> h)
  | throws e => (Thrown e, h)
  end.

(** *** Creators *)

Context {key_t : Type} `{Countable key_t}.

(** The body of a function [T* f()], and [creator_t], a pointer to such a
    function: [typedef T* creator_t();] behind a pointer that can be null. *)
Inductive body :=
  | do_return (p : pointer)
  | do_throw (e : exception)
  | do_new (T : class_t) (rest : pointer → body)
  | do_Register (key : key_t) (creator : creator_t) (rest : body)
  | do_IsRegistered (_id : key_t) (rest : bool → body)
with creator_t :=
  | null_function
  | function (f : body).

(** [template<class parent, class T> parent* create_policy_new()
    { return new T(); }]. The conversion of the [T*] to [parent*] keeps the
    address. *)
Definition create_policy_new (parent T : class_t) : creator_t :=
  function (do_new T (fun p => do_return p)).

(** The constructor that the description of [Register<ConcreteType>(key)]
    words out: it allocates a new [ConcreteType], constructed without
    arguments, and returns it upcast to [AbstractType]. *)
Definition described_upcast (AbstractType : class_t) (p : pointer) : pointer := p.

Definition described_constructor (AbstractType ConcreteType : class_t) : creator_t :=
  function (do_new ConcreteType (fun p => do_return (described_upcast AbstractType p))).

(** *** The factory *)

(** [boost::lexical_cast<std::string>(key)] *)
Context (lexical_cast : key_t → string).

(** [T], the second template argument: [typedef T abstract_type;] *)
Context (abstract_type : class_t).

Local Abbreviation assoc_map := (gmap key_t creator_t).

(** [class ObjectFactory { ... assoc_map _objects; }] *)
Record ObjectFactory := mkObjectFactory { _objects : assoc_map }.

(** [ObjectFactory() {}] *)
Definition ObjectFactory_new : ObjectFactory := {| _objects := ∅ |}.

(** What a member function runs on: [*this] and the free store. *)
Record world := World { this : ObjectFactory; store : heap }.

Definition M (A : Type) : Type := world → outcome A * world.

Definition ret {A} (a : A) : M A := fun w => (Returned a, w).

Definition bind {A B} (m : M A) (k : A → M B) : M B :=
  fun w => match m w with
           | (Returned a, w') => k a w'
           | (Thrown e, w') => (Thrown e, w')
           | (Undefined, w') => (Undefined, w')
           end.

Definition throw {A} (e : exception) : M A := fun w => (Thrown e, w).

Definition read_objects : M assoc_map := fun w => (Returned (_objects (this w)), w).

Definition write_objects (m : assoc_map) : M unit :=
  fun w => (Returned tt, {| this := {| _objects := m |}; store := store w |}).

Local Notation "x <- m ;; k" := (bind m (fun x => k))
  (at level 100, m at next level, right associativity).

(** [std::map::insert(value_type(key, creator))]: the map after the call and
    the [.second] of the returned pair. *)
Definition map_insert (m : assoc_map) (v : key_t * creator_t) : assoc_map * bool :=
  match m !! v.1 with
  | Some _ => (m, false)
  | None => (<[v.1 := v.2]> m, true)
  end.

(** [void Register(const key_t &key, creator_t creator)] *)
Definition Register (key : key_t) (creator : creator_t) : M unit :=
  m <- read_objects ;;
  let '(m', _) := map_insert m (key, creator) in
  write_objects m'.

(** [template<typename obj_t> void Register(const key_t &key)] *)
Definition Register_obj (obj_t : class_t) (key : key_t) : M unit :=
  Register key (create_policy_new abstract_type obj_t).

(** [bool IsRegistered(const key_t &_id) const] *)
Definition IsRegistered (_id : key_t) : M bool :=
  m <- read_objects ;;
  ret (bool_decide (is_Some (m !! _id))).

(** What the body of a creator does when it runs: [new] works on the free
    store, and the calls of [Register] and [IsRegistered] go to the factory
    that called the creator. An exception leaves the body at once. *)
Fixpoint run_body (f : body) : M pointer :=
  match f with
  | do_return p => ret p
  | do_throw e => throw e
  | do_new T rest =>
      fun w => match new_object T (store w) with
               | (Returned p, h) => run_body (rest p) {| this := this w; store := h |}
               | (Thrown e, h) => (Thrown e, {| this := this w; store := h |})
               | (Undefined, h) => (Undefined, {| this := this w; store := h |})
               end
  | do_Register key creator rest =>
      fun w => run_body rest (Register key creator w).2
  | do_IsRegistered _id rest =>
      fun w => match IsRegistered _id w with
               | (Returned b, w') => run_body (rest b) w'
               | (Thrown e, w') => (Thrown e, w')
               | (Undefined, w') => (Undefined, w')
               end
  end.

(** Call through a function pointer: [(creator)()]. To call through a null
    pointer is undefined behaviour. *)
Definition call (creator : creator_t) : M pointer :=
  match creator with
  | null_function => fun w => (Undefined, w)
  | function f => run_body f
  end.

(** [T *Create(const key_t &key)] *)
Definition Create (key : key_t) : M pointer :=
  m <- read_objects ;;
  match m !! key with
  | Some creator => call creator
  | None =>
      throw (runtime_error ("factory key " +:+ lexical_cast key +:+ " not found."))
  end.

(** [const assoc_map &getObjects() { return _objects; }] *)
Definition getObjects : M assoc_map := read_objects.

(** *** The registration token *)

(** [template<typename object_type> class ObjectFactoryRegister]: a class
    without data members. *)
Record ObjectFactoryRegister (object_type : class_t) := mkObjectFactoryRegister {}.

(** [ObjectFactoryRegister(factory_type &factory, key_type &key)], with
    [factory] the factory the computation runs on. *)
Definition ObjectFactoryRegister_new (object_type : class_t) (key : key_t)
    : M (ObjectFactoryRegister object_type) :=
  _ <- Register key (create_policy_new abstract_type object_type) ;;
  ret (mkObjectFactoryRegister object_type).

(** *** Clients of one factory *)

(** The calls a client can make on a factory, and what comes back. *)
Inductive request :=
  | call_Register (key : key_t) (creator : creator_t)
  | call_Register_obj (obj_t : class_t) (key : key_t)
  | call_Create (key : key_t)
  | call_IsRegistered (_id : key_t)
  | call_getObjects
  | call_ObjectFactoryRegister (object_type : class_t) (key : key_t).

Inductive reply :=
  | reply_void
  | reply_pointer (p : pointer)
  | reply_bool (b : bool)
  | reply_map (m : assoc_map)
  | reply_token (object_type : class_t) (t : ObjectFactoryRegister object_type).

Definition exec (r : request) : M reply :=
  match r with
  | call_Register key creator => _ <- Register key creator ;; ret reply_void
  | call_Register_obj obj_t key => _ <- Register_obj obj_t key ;; ret reply_void
  | call_Create key => p <- Create key ;; ret (reply_pointer p)
  | call_IsRegistered _id => b <- IsRegistered _id ;; ret (reply_bool b)
  | call_getObjects => m <- getObjects ;; ret (reply_map m)
  | call_ObjectFactoryRegister object_type key =>
      t <- ObjectFactoryRegister_new object_type key ;; ret (reply_token object_type t)
  end.

(** A client that makes the calls of [rs] one after the other and goes on
    after an exception. *)
Definition run (rs : list request) (w : world) : world :=
  foldl (fun w r => (exec r w).2) w rs.






(** A creator that returns, whatever the state it is called in. *)
Definition returns (creator : creator_t) : Prop :=
  ∀ w, ∃ p w', call creator w = (Returned p, w').

End Definitions.

Global Arguments object : clear implicits.
Global Arguments creator_t : clear implicits.
Global Arguments body : clear implicits.
Global Arguments ObjectFactory class_t key_t {_ _}.
Global Arguments world class_t key_t {_ _}.
Global Arguments M class_t key_t {_ _} A.
Global Arguments request class_t key_t : clear implicits.
Global Arguments reply class_t key_t {_ _}.

(** *** The statics of a program *)

Section Statics.

Context {class_t : Type} `{Constructible class_t} `{EqDecision class_t}.

(** The types that the program uses as keys: their names, their values and
    the [lexical_cast] of the values. *)
Context {type_name : Type} `{EqDecision type_name}.
Context (values : type_name → Type).
Context `{∀ K, EqDecision (values K)} `{∀ K, Countable (values K)}.
Context (lexical_cast_of : ∀ K, values K → string).

(** The template arguments [<key_t, T>] of an [ObjectFactory]. *)
Definition instantiation : Type := type_name * class_t.

Local Abbreviation key_of i := (values (fst i)).
Local Abbreviation abstract_of i := (snd i).
Local Abbreviation factory_of i := (ObjectFactory class_t (key_of i)).

(** The [static ObjectFactory<key_t, T> _this;] of [Instance()], one for
    every pair of template arguments ([None] until the first call constructs
    it), and the free store. *)
Record process := Process {
  statics : ∀ i : instantiation, option (factory_of i);
  free_store : gmap positive (object class_t)
}.

(** The program at its start. *)
Definition process_start : process :=
  {| statics := fun _ => None; free_store := ∅ |}.

Definition set_static (i : instantiation) (f : factory_of i)
    (st : ∀ j, option (factory_of j)) : ∀ j, option (factory_of j) :=
  fun j => match decide (i = j) with
           | left e => Some (eq_rect i (fun x => factory_of x) f j e)
           | right _ => st j
           end.

(** [static ObjectFactory<key_t, T>& Instance()]: the first call constructs
    [_this]; every call returns it. *)
Definition Instance (i : instantiation) (s : process) : factory_of i * process :=
  match statics s i with
  | Some _this => (_this, s)
  | None =>
      let _this := ObjectFactory_new in
      (_this, {| statics := set_static i _this (statics s);
                 free_store := free_store s |})
  end.

(** [ObjectFactory<key_t, T>::Instance().f(...)]: the member function [f]
    runs on the static, by reference. *)
Definition at_Instance {A} (i : instantiation) (f : M class_t (key_of i) A)
    : process → outcome A * process :=
  fun s =>
    let '(_this, s1) := Instance i s in
    let '(r, w) := f {| this := _this; store := free_store s1 |} in
    (r, {| statics := set_static i (this w) (statics s1);
           free_store := store w |}).

(** A call of the program on one of its factories. *)
Record static_request := on_Instance {
  target : instantiation;
  request_of : request class_t (key_of target)
}.

Definition exec_static (r : static_request)
    : process → outcome (reply class_t (key_of (target r))) * process :=
  at_Instance (target r)
    (exec (lexical_cast_of (fst (target r))) (abstract_of (target r)) (request_of r)).

Definition run_static (rs : list static_request) (s : process) : process :=
  foldl (fun s r => (exec_static r s).2) s rs.

(** [REGISTER_OBJECT(factory, object, key)]: a variable of type
    [ObjectFactoryRegister<object>] in an unnamed namespace, constructed
    with [(factory, key)] when the statics of its translation unit are
    initialised. The factory is the static of a pair of template arguments. *)
Definition REGISTER_OBJECT (factory : instantiation) (object : class_t)
    (key : key_of factory) : static_request :=
  on_Instance factory (call_ObjectFactoryRegister object key).

(** The [REGISTER_OBJECT] declarations of a program, each with its factory,
    class and key, and the initialisation of the statics, which constructs
    their tokens one after the other. *)
Definition declaration : Type :=
  {factory : instantiation & (class_t * key_of factory)%type}.

Definition declared (d : declaration) : static_request :=
  REGISTER_OBJECT (projT1 d) (fst (projT2 d)) (snd (projT2 d)).

Definition initialise (ds : list declaration) (s : process) : process :=
  run_static (declared <$> ds) s.

(** The factory and key that a declaration registers under. *)
Definition place (d : declaration) : {factory : instantiation & key_of factory} :=
  existT (projT1 d) (snd (projT2 d)).

End Statics.

Global Arguments instantiation : clear implicits.
Global Arguments process class_t {type_name} values {_ _}.
Global Arguments static_request class_t {type_name} values.
Global Arguments declaration class_t {type_name} values.

(** *** A program with two factories *)

(** Readers and writers of file formats, as the documentation of
    [ObjectFactory] suggests, registered by name and by number. *)
Module Formats.

Inductive class_name :=
  Reader | JsonReader | XmlReader | ThrowingReader | Writer | CsvWriter.

Definition is_base_of (parent T : class_name) : bool :=
  match parent, T with
  | Reader, (Reader | JsonReader | XmlReader | ThrowingReader) => true
  | Writer, (Writer | CsvWriter) => true
  | JsonReader, JsonReader | XmlReader, XmlReader | CsvWriter, CsvWriter => true
  | ThrowingReader, ThrowingReader => true
  | _, _ => false
  end.

(** [ThrowingReader() { throw std::runtime_error("boom"); }]; the other
    constructors complete. *)
Global Instance class_name_constructible : Constructible class_name :=
  fun T => match T with
           | ThrowingReader => throws (runtime_error "boom")
           | _ => constructs
           end.

Global Instance class_name_eq_dec : EqDecision class_name.
Proof. solve_decision. Defined.

(** The key types of the program. *)
Inductive key_type := std_string | int.

Global Instance key_type_eq_dec : EqDecision key_type.
Proof. solve_decision. Defined.

Definition values (K : key_type) : Type :=
  match K with std_string => string | int => Z end.

Global Instance values_eq_dec K : EqDecision (values K).
Proof. destruct K; simpl; apply _. Defined.

Global Instance values_countable K : Countable (values K).
Proof. destruct K; simpl; apply _. Defined.

Definition lexical_cast_of (K : key_type) : values K → string :=
  match K with std_string => fun s => s | int => fun z => pretty z end.

(** [ObjectFactory<std::string, Reader>] and [ObjectFactory<int, Writer>] *)
Definition Readers : instantiation class_name key_type := (std_string, Reader).
Definition Writers : instantiation class_name key_type := (int, Writer).

(** A reader factory after [Register<ThrowingReader>("bad")]. *)
Definition bad_readers : world class_name string :=
  (Register_obj Reader ThrowingReader "bad"
     {| this := ObjectFactory_new; store := ∅ |}).2.



(** A reader factory in which ["json"] and ["xml"] are registered. *)
Definition readers : world class_name string :=
  (Register_obj Reader XmlReader "xml"
     (Register_obj Reader JsonReader "json"
        {| this := ObjectFactory_new; store := ∅ |}).2).2.

End Formats.

(** ** One factory: registration, lookup, creation *)

Section Factory.

Context {class_t : Type} `{Constructible class_t}.
Context (is_base_of : class_t → class_t → bool).
Context {key_t : Type} `{Countable key_t}.
Context (lexical_cast : key_t → string) (abstract_type : class_t).

Implicit Types (w : world class_t key_t) (key : key_t).
Implicit Types (creator : creator_t class_t key_t) (f : body class_t key_t).

(** The exception of [Create]. *)
Local Abbreviation not_found key :=
  (runtime_error ("factory key " +:+ lexical_cast key +:+ " not found.")).

(** *** The calls, one by one *)

Lemma Register_eq w key creator :
  Register key creator w =
    (Returned tt,
     {| this := {| _objects := match _objects (this w) !! key with
                               | Some _ => _objects (this w)
                               | None => <[key := creator]> (_objects (this w))
                               end |};
        store := store w |}).
Proof.
  unfold Register, bind, read_objects, write_objects, map_insert; simpl.
  by destruct (_objects (this w) !! key).
Qed.

Lemma Register_lookup w key creator key' :
  _objects (this (Register key creator w).2) !! key' =
    match _objects (this w) !! key' with
    | Some c => Some c
    | None => if decide (key = key') then Some creator else None
    end.
Proof.
  rewrite Register_eq; simpl.
  destruct (decide (key = key')) as [<-|Hne].
  - destruct (_objects (this w) !! key) eqn:E; simpl.
    + by rewrite E.
    + by rewrite lookup_insert_eq.
  - destruct (_objects (this w) !! key) eqn:E; simpl.
    + by destruct (_objects (this w) !! key').
    + rewrite lookup_insert_ne; [|done]. by destruct (_objects (this w) !! key').
Qed.

Lemma Register_present w key creator :
  is_Some (_objects (this w) !! key) → (Register key creator w).2 = w.
Proof.
  intros [c Hc]. rewrite Register_eq, Hc; simpl. by destruct w as [[m] h].
Qed.

Lemma Create_found w key creator :
  _objects (this w) !! key = Some creator →
  Create lexical_cast key w = call creator w.
Proof.
  intros Hc. unfold Create, bind, read_objects; simpl. by rewrite Hc.
Qed.

Lemma Create_not_found w key :
  _objects (this w) !! key = None →
  Create lexical_cast key w = (Thrown (not_found key), w).
Proof.
  intros Hc. unfold Create, bind, read_objects, throw; simpl. by rewrite Hc.
Qed.

Lemma IsRegistered_eq w key :
  IsRegistered key w =
    (Returned (bool_decide (is_Some (_objects (this w) !! key))), w).
Proof. reflexivity. Qed.

(** *** What a creator can do to the factory *)

(** The body of a creator keeps every entry of the map: what it registers
    goes in only where the key is free. *)
Lemma run_body_lookup_Some f w key creator :
  _objects (this w) !! key = Some creator →
  _objects (this (run_body f w).2) !! key = Some creator.
Proof.
  revert w. induction f as [p|e|T rest IH|key' creator' rest IH|_id rest IH];
    intros w Hk; simpl.
  - done.
  - done.
  - unfold new_object. destruct (constructor T); [|done]. by apply IH.
  - apply IH. by rewrite Register_lookup, Hk.
  - by apply IH.
Qed.

Lemma call_lookup_Some creator' w key creator :
  _objects (this w) !! key = Some creator →
  _objects (this (call creator' w).2) !! key = Some creator.
Proof. destruct creator' as [|f]; [done|]. apply run_body_lookup_Some. Qed.



Lemma Create_lookup_Some w key' key creator :
  _objects (this w) !! key = Some creator →
  _objects (this (Create lexical_cast key' w).2) !! key = Some creator.
Proof.
  intros Hk. destruct (_objects (this w) !! key') as [c|] eqn:E.
  - rewrite (Create_found _ _ _ E). by apply call_lookup_Some.
  - by rewrite (Create_not_found _ _ E).
Qed.

(** Only [Create] throws: for want of a creator, or what the creator throws. *)
Lemma exec_Thrown w r e :
  (exec lexical_cast abstract_type r w).1 = Thrown e →
  ∃ key, r = call_Create key
         ∧ ((_objects (this w) !! key = None ∧ e = not_found key)
            ∨ ∃ creator, _objects (this w) !! key = Some creator
                         ∧ (call creator w).1 = Thrown e).
Proof.
  destruct r as [key creator|obj_t key|key|_id| |object_type key]; simpl.
  - unfold bind. rewrite Register_eq. discriminate.
  - unfold bind, Register_obj. rewrite Register_eq. discriminate.
  - unfold bind. destruct (_objects (this w) !! key) as [c|] eqn:E.
    + rewrite (Create_found _ _ _ E).
      destruct (call c w) as [[p|e'|] w'] eqn:Ec; simpl; try discriminate.
      intros [= <-]. exists key. split; [done|]. right. exists c. by rewrite Ec.
    + rewrite (Create_not_found _ _ E). simpl. intros [= <-]. eauto.
  - discriminate.
  - discriminate.
  - unfold ObjectFactoryRegister_new, bind. rewrite Register_eq. discriminate.
Qed.

(** A call on the factory keeps every entry of the map. *)
Lemma exec_lookup_Some w r key creator :
  _objects (this w) !! key = Some creator →
  _objects (this (exec lexical_cast abstract_type r w).2) !! key = Some creator.
Proof.
  intros Hk.
  destruct r as [key' creator'|obj_t key'|key'|_id| |object_type key']; simpl.
  - unfold bind.
    pose proof (Register_lookup w key' creator' key) as L.
    rewrite Register_eq in *. simpl in *. by rewrite L, Hk.
  - unfold bind, Register_obj.
    pose proof (Register_lookup w key' (create_policy_new abstract_type obj_t) key) as L.
    rewrite Register_eq in *. simpl in *. by rewrite L, Hk.
  - unfold bind.
    pose proof (Create_lookup_Some w key' key creator Hk) as T.
    by destruct (Create lexical_cast key' w) as [[p|e|] w'].
  - done.
  - done.
  - unfold ObjectFactoryRegister_new, bind.
    pose proof (Register_lookup w key' (create_policy_new abstract_type object_type) key) as L.
    rewrite Register_eq in *. simpl in *. by rewrite L, Hk.
Qed.

Lemma run_lookup_Some rs w key creator :
  _objects (this w) !! key = Some creator →
  _objects (this (run lexical_cast abstract_type rs w)) !! key = Some creator.
Proof.
  revert w. induction rs as [|r rs IH]; intros w Hk; simpl; [done|].
  apply IH. by apply exec_lookup_Some.
Qed.

(** What [create_policy_new] does when the constructor completes, and when
    it throws. *)
Lemma create_policy_new_fresh (parent T : class_t) w :
  constructor T = constructs →
  ∃ a, call (create_policy_new (key_t := key_t) parent T) w
       = (Returned (Ptr a), {| this := this w; store := <[a := Object T]> (store w) |})
       ∧ store w !! a = None.
Proof.
  intros HT. exists (fresh (dom (store w))). split.
  - simpl. unfold new_object. by rewrite HT.
  - apply not_elem_of_dom, is_fresh.
Qed.


(** *** The failures of [Create] *)

(** C1. When no creator is registered under [key], [Create(key)] throws the
    [runtime_error] whose message holds the key's string form between
    ["factory key "] and [" not found."], and changes nothing. When a
    creator is registered under [key], [Create] calls it and ends as the
    creator ends: it returns the pointer that the creator returns, or lets
    through what the creator throws. So [Create] throws only for want of a
    creator or because the creator threw, and with a creator that returns it
    returns. No other call on the factory throws. *)
Theorem Create_throws_not_found_or_as_the_creator w key :
  (_objects (this w) !! key = None →
     Create lexical_cast key w
     = (Thrown (runtime_error ("factory key " +:+ lexical_cast key +:+ " not found.")), w))
  ∧ (∀ creator, _objects (this w) !! key = Some creator →
       Create lexical_cast key w = call creator w)
  ∧ (∀ e, (Create lexical_cast key w).1 = Thrown e →
       (_objects (this w) !! key = None
        ∧ e = runtime_error ("factory key " +:+ lexical_cast key +:+ " not found."))
       ∨ ∃ creator, _objects (this w) !! key = Some creator
                    ∧ (call creator w).1 = Thrown e)
  ∧ (∀ creator, _objects (this w) !! key = Some creator → returns creator →
       ∃ p, (Create lexical_cast key w).1 = Returned p)
  ∧ (∀ r w' e, (exec lexical_cast abstract_type r w').1 = Thrown e →
       ∃ key', r = call_Create key'
               ∧ ((_objects (this w') !! key' = None
                   ∧ e = runtime_error
                           ("factory key " +:+ lexical_cast key' +:+ " not found."))
                  ∨ ∃ creator, _objects (this w') !! key' = Some creator
                               ∧ (call creator w').1 = Thrown e)).
Proof.
  split_and!.
  - apply Create_not_found.
  - apply Create_found.
  - intros e. destruct (_objects (this w) !! key) as [c|] eqn:E.
    + rewrite (Create_found _ _ _ E). intros He. right. eauto.
    + rewrite (Create_not_found _ _ E). intros [= <-]. by left.
  - intros creator E Hr. rewrite (Create_found _ _ _ E).
    destruct (Hr w) as (p & w' & ->). eauto.
  - intros r w' e. apply exec_Thrown.
Qed.

(** *** Registration *)

(** C2. [Register] never throws, on any factory and with any arguments. When
    a creator is already registered under [key], the call changes nothing:
    the factory and the free store are as before and [Create(key)] does what
    it did. So of two registrations under one key the first one stays, and
    [Create] goes on calling the creator of the class registered first and,
    its constructor completing, making objects of that class. *)
Theorem Register_insert_if_absent w key creator :
  (Register key creator w).1 = Returned tt
  ∧ (is_Some (_objects (this w) !! key) →
       (Register key creator w).2 = w
       ∧ Create lexical_cast key (Register key creator w).2 = Create lexical_cast key w)
  ∧ (_objects (this w) !! key = None →
       ∀ second,
         let w1 := (Register key creator w).2 in
         _objects (this w1) !! key = Some creator
         ∧ (Register key second w1).2 = w1)
  ∧ (_objects (this w) !! key = None →
       ∀ A B,
         let w2 := (Register_obj abstract_type B key
                      (Register_obj abstract_type A key w).2).2 in
         Create lexical_cast key w2 = call (create_policy_new abstract_type A) w2
         ∧ (constructor A = constructs →
            ∃ a, (Create lexical_cast key w2).1 = Returned (Ptr a)
                 ∧ store w2 !! a = None
                 ∧ store (Create lexical_cast key w2).2 !! a = Some (Object A))).
Proof.
  split_and!.
  - by rewrite Register_eq.
  - intros Hk. by rewrite (Register_present _ _ _ Hk).
  - intros Hk second w1.
    assert (Hw1 : _objects (this w1) !! key = Some creator).
    { unfold w1. rewrite Register_lookup, Hk. by rewrite decide_True. }
    split; [done|]. apply Register_present. eauto.
  - intros Hk A B w2.
    assert (Hw2 : _objects (this w2) !! key = Some (create_policy_new abstract_type A)).
    { unfold w2, Register_obj. rewrite !Register_lookup, Hk. by rewrite decide_True. }
    rewrite (Create_found _ _ _ Hw2). split; [done|]. intros HA.
    destruct (create_policy_new_fresh abstract_type A w2 HA) as (a & -> & Fa).
    exists a. cbn [fst snd store]. split_and!; [done|done|].
    by rewrite lookup_insert_eq.
Qed.

(** *** Creation *)

(** C3. Let class [A], which derives from the abstract type and whose
    default constructor completes, be registered under a key that was free.
    Then [Create(key)] returns a pointer to a new object: the address was not
    in use, the object there has dynamic type [A] and so is a valid object of
    the abstract type, no other object of the free store is touched, and the
    factory is as before. A later call of [Create(key)], after whatever calls
    on the factory and with whatever free store in which the first object is
    still alive, returns a pointer to another new object of type [A],
    different from the first, which it leaves alone. *)
Theorem Create_returns_fresh_instances w key A :
  _objects (this w) !! key = None →
  is_base_of abstract_type A = true →
  constructor A = constructs →
  let w0 := (Register_obj abstract_type A key w).2 in
  ∀ h,
    let first := Create lexical_cast key {| this := this w0; store := h |} in
    ∃ a1,
      first.1 = Returned (Ptr a1)
      ∧ h !! a1 = None
      ∧ store first.2 !! a1 = Some (Object A)
      ∧ points_to is_base_of abstract_type (store first.2) (Ptr a1)
      ∧ (∀ a, a ≠ a1 → store first.2 !! a = h !! a)
      ∧ this first.2 = this w0
      ∧ ∀ rs h',
          is_Some (h' !! a1) →
          let w' := {| this := this (run lexical_cast abstract_type rs first.2);
                       store := h' |} in
          let second := Create lexical_cast key w' in
          ∃ a2,
            second.1 = Returned (Ptr a2)
            ∧ a2 ≠ a1
            ∧ h' !! a2 = None
            ∧ store second.2 !! a2 = Some (Object A)
            ∧ points_to is_base_of abstract_type (store second.2) (Ptr a2)
            ∧ store second.2 !! a1 = h' !! a1
            ∧ this second.2 = this w'.
Proof.
  intros Hk HA HcA w0 h first.
  assert (Hw0 : _objects (this w0) !! key = Some (create_policy_new abstract_type A)).
  { unfold w0, Register_obj. rewrite Register_lookup, Hk. by rewrite decide_True. }
  destruct (create_policy_new_fresh abstract_type A {| this := this w0; store := h |} HcA)
    as (a1 & E1 & F1).
  cbn [this store] in E1, F1.
  assert (Hfirst : first = (Returned (Ptr a1), {| this := this w0; store := <[a1 := Object A]> h |})).
  { unfold first.
    by rewrite (Create_found {| this := this w0; store := h |} _ _ Hw0). }
  exists a1. rewrite Hfirst; simpl. split_and!.
  - done.
  - done.
  - by rewrite lookup_insert_eq.
  - exists (Object A). simpl. by rewrite lookup_insert_eq.
  - intros a Ha. by rewrite lookup_insert_ne.
  - done.
  - intros rs h' Hlive.
    set (w1 := {| this := this w0; store := <[a1:=Object A]> h |}).
    assert (Hw' : _objects (this (run lexical_cast abstract_type rs w1)) !! key
                  = Some (create_policy_new abstract_type A)).
    { by apply run_lookup_Some. }
    destruct (create_policy_new_fresh abstract_type A
                {| this := this (run lexical_cast abstract_type rs w1); store := h' |} HcA)
      as (a2 & E2 & F2).
    cbn [this store] in E2, F2.
    exists a2.
    rewrite (Create_found {| this := this (run lexical_cast abstract_type rs w1);
                             store := h' |} _ _ Hw'), E2.
    cbn [store this fst snd].
    assert (Hne : a2 ≠ a1).
    { intros ->. rewrite F2 in Hlive. by destruct Hlive. }
    split_and!.
    + done.
    + done.
    + done.
    + by rewrite lookup_insert_eq.
    + exists (Object A). simpl. by rewrite lookup_insert_eq.
    + by rewrite lookup_insert_ne.
    + done.
Qed.

(** *** Lookup *)

(** C4. [IsRegistered(key)] answers [true] exactly when a creator is
    registered under [key]. It returns, and leaves the factory and the free
    store as they were. *)
Theorem IsRegistered_pure_query w key :
  (∃ b, IsRegistered key w = (Returned b, w)
        ∧ (b = true ↔ is_Some (_objects (this w) !! key))
        ∧ (b = true ↔ ∃ creator, _objects (this w) !! key = Some creator))
  ∧ (exec lexical_cast abstract_type (call_IsRegistered key) w).2 = w.
Proof.
  split; [|done].
  exists (bool_decide (is_Some (_objects (this w) !! key))). split_and!.
  - done.
  - apply bool_decide_eq_true.
  - rewrite bool_decide_eq_true. done.
Qed.

(** *** The two forms of [Register] *)

(** C6. [Register<ConcreteType>(key)] does what [Register(key, c)] does for
    [c] the constructor of the description, which allocates a new
    [ConcreteType] and returns it upcast to the abstract type: the two calls
    return the same and leave the same factory and free store, every later
    [Create] behaves the same after either, and [c] does what
    [create_policy_new<abstract_type, ConcreteType>] does. *)
Theorem Register_obj_refines_Register w key ConcreteType :
  Register_obj abstract_type ConcreteType key w
    = Register key (described_constructor abstract_type ConcreteType) w
  ∧ (∀ key' h,
       let after_obj := (Register_obj abstract_type ConcreteType key w).2 in
       let after_c :=
         (Register key (described_constructor abstract_type ConcreteType) w).2 in
       Create lexical_cast key' {| this := this after_obj; store := h |}
       = Create lexical_cast key' {| this := this after_c; store := h |})
  ∧ (∀ w', call (described_constructor abstract_type ConcreteType) w'
           = call (create_policy_new abstract_type ConcreteType) w').
Proof. split_and!; reflexivity. Qed.

(** *** The view of the map *)

(** C7. Register three different keys, none of them registered before. Then
    [getObjects()] returns the map and changes nothing; in the map each of
    the three keys has the creator it was registered with, and every other
    key has what it had before. Starting from a new factory, the map has
    exactly the three keys, and no fourth entry. *)
Theorem getObjects_after_three_registrations w (a b c : key_t) (ca cb cc : creator_t class_t key_t) :
  a ≠ b → a ≠ c → b ≠ c →
  _objects (this w) !! a = None →
  _objects (this w) !! b = None →
  _objects (this w) !! c = None →
  let w3 := (Register c cc (Register b cb (Register a ca w).2).2).2 in
  ∃ m,
    getObjects w3 = (Returned m, w3)
    ∧ m !! a = Some ca ∧ m !! b = Some cb ∧ m !! c = Some cc
    ∧ (∀ key, key ≠ a → key ≠ b → key ≠ c → m !! key = _objects (this w) !! key)
    ∧ dom m = {[a; b; c]} ∪ dom (_objects (this w))
    ∧ (this w = ObjectFactory_new →
         dom m = {[a; b; c]} ∧ size m = 3
         ∧ m = <[c := cc]> (<[b := cb]> (<[a := ca]> ∅))).
Proof using Type.
  clear is_base_of lexical_cast abstract_type.
  intros Hab Hac Hbc Ha Hb Hc w3.
  assert (Hm : _objects (this w3)
               = <[c := cc]> (<[b := cb]> (<[a := ca]> (_objects (this w))))).
  { unfold w3. rewrite !Register_eq. cbn [this _objects snd].
    rewrite Ha. rewrite lookup_insert_ne, Hb by done.
    by rewrite !lookup_insert_ne, Hc by done. }
  exists (_objects (this w3)). split; [done|]. rewrite Hm. split_and!.
  - by rewrite !lookup_insert_ne, lookup_insert_eq by done.
  - by rewrite lookup_insert_ne, lookup_insert_eq by done.
  - by rewrite lookup_insert_eq.
  - intros key ? ? ?. by rewrite !lookup_insert_ne by done.
  - rewrite !dom_insert_L. apply set_eq. intros key.
    rewrite !elem_of_union, !elem_of_singleton. tauto.
  - intros ->. cbn [ObjectFactory_new _objects]. split_and!.
    + rewrite !dom_insert_L, dom_empty_L. apply set_eq. intros key.
      rewrite !elem_of_union, !elem_of_singleton, elem_of_empty. tauto.
    + rewrite !map_size_insert_None, map_size_empty; [done|done|..].
      * by rewrite lookup_insert_ne, lookup_empty by done.
      * by rewrite !lookup_insert_ne, lookup_empty by done.
    + done.
Qed.

(** *** Permanence *)

(** C9. Once [IsRegistered(key)] answers [true], it answers [true] after any
    further calls on the factory ([Register] with any arguments, [Create]
    with any key, [IsRegistered], [getObjects], the construction of
    registration tokens), whether they return or throw, and the creator
    registered under [key] is the same one. *)
Theorem registration_is_permanent w key :
  (IsRegistered key w).1 = Returned true →
  ∀ rs,
    (IsRegistered key (run lexical_cast abstract_type rs w)).1 = Returned true
    ∧ _objects (this (run lexical_cast abstract_type rs w)) !! key
      = _objects (this w) !! key.
Proof.
  intros Hb rs. rewrite IsRegistered_eq in Hb. injection Hb as Hb.
  apply bool_decide_eq_true in Hb as [creator Hc].
  rewrite IsRegistered_eq. cbn [fst].
  by rewrite (run_lookup_Some rs _ _ _ Hc), Hc.
Qed.

(** *** [Create] and the map *)


End Factory.

(** ** The factories of a program *)

Section Program.

Context {class_t : Type} `{Constructible class_t} `{EqDecision class_t}.
Context {type_name : Type} `{EqDecision type_name}.
Context (values : type_name → Type).
Context `{∀ K, EqDecision (values K)} `{∀ K, Countable (values K)}.
Context (lexical_cast_of : ∀ K, values K → string).

Local Abbreviation instantiation := (instantiation class_t type_name).

Implicit Types (s : process class_t values) (i j : instantiation).

Lemma set_static_ne i j (f : ObjectFactory class_t (values i.1)) st :
  i ≠ j → set_static values i f st j = st j.
Proof. intros Hne. unfold set_static. by destruct (decide (i = j)). Qed.

Lemma set_static_eq i (f : ObjectFactory class_t (values i.1)) st :
  set_static values i f st i = Some f.
Proof.
  unfold set_static. destruct (decide (i = i)) as [e|]; [|done].
  by rewrite (proof_irrel e eq_refl).
Qed.

Lemma statics_Instance_ne i j s :
  i ≠ j → statics values (Instance values i s).2 j = statics values s j.
Proof.
  intros Hne. unfold Instance. destruct (statics values s i); simpl; [done|].
  by apply set_static_ne.
Qed.

Lemma free_store_Instance i s :
  free_store values (Instance values i s).2 = free_store values s.
Proof. unfold Instance. by destruct (statics values s i). Qed.

(** Every call of [Instance()] returns the same static: a second call
    constructs nothing and returns what the first returned. *)
Lemma Instance_again i s :
  Instance values i (Instance values i s).2
  = ((Instance values i s).1, (Instance values i s).2).
Proof.
  unfold Instance at 2 3 4. destruct (statics values s i) as [_this|] eqn:E.
  - unfold Instance. simpl. by rewrite E.
  - unfold Instance. simpl. by rewrite set_static_eq.
Qed.

(** A member function that runs on one static leaves the others alone. *)
Lemma statics_at_Instance_ne {A} i j (f : M class_t (values i.1) A) s :
  i ≠ j → statics values (at_Instance values i f s).2 j = statics values s j.
Proof.
  intros Hne. unfold at_Instance.
  pose proof (statics_Instance_ne i j s Hne) as HI.
  destruct (Instance values i s) as [_this s1]. simpl in HI.
  destruct (f _) as [r w]. simpl. by rewrite set_static_ne.
Qed.

(** It runs on the static as it is, or on a new factory when this is the
    first call of [Instance()], and the static has its result. *)
Lemma at_Instance_eq {A} i (f : M class_t (values i.1) A) s :
  let w := {| this := default ObjectFactory_new (statics values s i);
              store := free_store values s |} in
  (at_Instance values i f s).1 = (f w).1
  ∧ statics values (at_Instance values i f s).2 i = Some (this (f w).2)
  ∧ free_store values (at_Instance values i f s).2 = store (f w).2.
Proof.
  unfold at_Instance, Instance.
  destruct (statics values s i) as [_this|]; simpl.
  - destruct (f _) as [r w]. simpl. by rewrite set_static_eq.
  - destruct (f _) as [r w]. simpl. by rewrite set_static_eq.
Qed.


(** The static of a factory, once constructed, stays constructed and keeps
    its entries through every call of the program on any of its factories. *)
Lemma run_static_lookup_Some rs s i (key : values i.1) creator :
  (∃ f, statics values s i = Some f ∧ _objects f !! key = Some creator) →
  ∃ f, statics values (run_static values lexical_cast_of rs s) i = Some f
       ∧ _objects f !! key = Some creator.
Proof.
  revert s. induction rs as [|[t r] rs IH]; intros s Hs; simpl; [done|].
  apply IH. destruct Hs as (f & Hf & Hk). unfold exec_static. simpl.
  destruct (decide (t = i)) as [->|Hne].
  - destruct (at_Instance_eq i (exec (lexical_cast_of i.1) i.2 r) s) as (_ & -> & _).
    rewrite Hf. simpl. eexists. split; [done|].
    by apply exec_lookup_Some.
  - rewrite statics_at_Instance_ne by done. eauto.
Qed.

(** *** Registration tokens *)

(** C5. Constructing a registration token for [object_type] with a factory
    and a key makes one call of [Register] on that factory, with the key
    and [create_policy_new<abstract_type, object_type>], which is what
    [Register<object_type>(key)] does; no entry under another key changes.
    The token has no data: any two tokens of one type are equal. When the
    factory is the static of one instantiation, the statics of the other
    instantiations and the free store stay as they were. *)
Theorem ObjectFactoryRegister_registers_once s i (object_type : class_t) (key : values i.1) :
  (∀ w, ObjectFactoryRegister_new i.2 object_type key w
        = (Returned (mkObjectFactoryRegister object_type),
           (Register key (create_policy_new i.2 object_type) w).2))
  ∧ (∀ w, (ObjectFactoryRegister_new i.2 object_type key w).2
          = (Register_obj i.2 object_type key w).2)
  ∧ (∀ w key', key' ≠ key →
       _objects (this (ObjectFactoryRegister_new i.2 object_type key w).2) !! key'
       = _objects (this w) !! key')
  ∧ (∀ t1 t2 : ObjectFactoryRegister object_type, t1 = t2)
  ∧ (let s' := (at_Instance values i
                  (ObjectFactoryRegister_new i.2 object_type key) s).2 in
     s' = (at_Instance values i (Register_obj i.2 object_type key) s).2
     ∧ (∀ j, i ≠ j → statics values s' j = statics values s j)
     ∧ free_store values s' = free_store values s).
Proof.
  assert (Hnew : ∀ w, ObjectFactoryRegister_new i.2 object_type key w
        = (Returned (mkObjectFactoryRegister object_type),
           (Register key (create_policy_new i.2 object_type) w).2)).
  { intros w. unfold ObjectFactoryRegister_new, bind, ret. by rewrite Register_eq. }
  split_and!.
  - done.
  - intros w. by rewrite Hnew.
  - intros w key' Hne. rewrite Hnew. cbn [snd].
    rewrite Register_lookup. rewrite decide_False by done.
    by destruct (_objects (this w) !! key').
  - by intros [] [].
  - intros s'. split_and!.
    + unfold s', at_Instance. destruct (Instance values i s) as [_this s1].
      rewrite Hnew. unfold Register_obj.
      by destruct (Register key _ _) as [r w].
    + intros j Hne. by apply statics_at_Instance_ne.
    + unfold s'.
      destruct (at_Instance_eq i (ObjectFactoryRegister_new i.2 object_type key) s)
        as (_ & _ & ->).
      by rewrite Hnew, Register_eq.
Qed.

(** *** Independence *)

(** C8. The factories of two different pairs of template arguments do not
    share state: a call of [Register] on the static of one leaves the static
    of the other as it was, so [IsRegistered] on the other answers what it
    answered before, for every key, and [getObjects] returns the same map.
    The same holds for any other call on the first. *)
Theorem instances_are_independent s i j
    (x : values i.1) (creator : creator_t class_t (values i.1)) (x' : values j.1) :
  i ≠ j →
  let s' := (at_Instance values i (Register x creator) s).2 in
  statics values s' j = statics values s j
  ∧ (at_Instance values j (IsRegistered x') s').1
    = (at_Instance values j (IsRegistered x') s).1
  ∧ (at_Instance values j getObjects s').1 = (at_Instance values j getObjects s).1
  ∧ (∀ r : request class_t (values i.1),
       let s'' := (at_Instance values i (exec (lexical_cast_of i.1) i.2 r) s).2 in
       statics values s'' j = statics values s j
       ∧ (at_Instance values j (IsRegistered x') s'').1
         = (at_Instance values j (IsRegistered x') s).1).
Proof.
  intros Hne s'.
  assert (Hs' : statics values s' j = statics values s j).
  { by apply statics_at_Instance_ne. }
  assert (Hq : ∀ s1 s2, statics values s1 j = statics values s2 j →
               (at_Instance values j (IsRegistered x') s1).1
               = (at_Instance values j (IsRegistered x') s2).1).
  { intros s1 s2 E.
    destruct (at_Instance_eq j (IsRegistered x') s1) as (-> & _).
    destruct (at_Instance_eq j (IsRegistered x') s2) as (-> & _).
    by rewrite !IsRegistered_eq, E. }
  split_and!.
  - done.
  - by apply Hq.
  - destruct (at_Instance_eq j getObjects s') as (-> & _).
    destruct (at_Instance_eq j getObjects s) as (-> & _).
    unfold getObjects, read_objects. simpl. by rewrite Hs'.
  - intros r s''.
    assert (Hs'' : statics values s'' j = statics values s j).
    { by apply statics_at_Instance_ne. }
    split; [done|]. by apply Hq.
Qed.

End Program.

(** ** The theorems at work on the two factories of [Formats] *)

Example Create_json :
  (Create id "json" Formats.readers).1 = Returned (Ptr 1)
  ∧ store (Create id "json" Formats.readers).2 !! 1%positive
    = Some (Object Formats.JsonReader).
Proof. split; reflexivity. Qed.

Example Create_csv :
  Create id "csv" Formats.readers
  = (Thrown (runtime_error "factory key csv not found."), Formats.readers).
Proof. reflexivity. Qed.

Example Create_twice :
  let first := Create id "xml" Formats.readers in
  let second := Create id "xml" first.2 in
  first.1 = Returned (Ptr 1) ∧ second.1 = Returned (Ptr 2)
  ∧ map_to_list (store second.2)
    = [(2%positive, Object Formats.XmlReader); (1%positive, Object Formats.XmlReader)].
Proof. vm_compute. done. Qed.

Example Register_json_again :
  (Register_obj Formats.Reader Formats.XmlReader "json" Formats.readers).2
  = Formats.readers.
Proof. reflexivity. Qed.

Example Create_writer_7 :
  (at_Instance Formats.values Formats.Writers
     (Create (Formats.lexical_cast_of Formats.int) 7%Z)
     (process_start Formats.values)).1
  = Thrown (runtime_error "factory key 7 not found.").
Proof. reflexivity. Qed.

(** [Register<ThrowingReader>("bad")], then [Create("bad")]: the key is
    registered and [Create] throws what the constructor throws, so it is not
    only for want of a creator that [Create] throws. *)
Lemma Create_throws_with_the_key_registered :
  _objects (this Formats.bad_readers) !! "bad"
  = Some (create_policy_new Formats.Reader Formats.ThrowingReader)
  ∧ (IsRegistered "bad" Formats.bad_readers).1 = Returned true
  ∧ Create id "bad" Formats.bad_readers
    = (Thrown (runtime_error "boom"), Formats.bad_readers)
  ∧ ¬ (∀ (w : world Formats.class_name string) (key : string),
         _objects (this w) !! key = None ↔ ∃ e, (Create id key w).1 = Thrown e).
Proof.
  split_and!; [reflexivity|reflexivity|reflexivity|].
  intros Hall.
  assert (Hno : _objects (this Formats.bad_readers) !! "bad" = None).
  { apply Hall. by exists (runtime_error "boom"). }
  discriminate Hno.
Qed.

(** A creator that is a null pointer: [Create] neither returns nor throws. *)
Example Create_through_null :
  let w : world Formats.class_name string :=
    (Register "null" null_function {| this := ObjectFactory_new; store := ∅ |}).2 in
  (IsRegistered "null" w).1 = Returned true
  ∧ Create id "null" w = (Undefined, w).
Proof. split; reflexivity. Qed.


Lemma Create_returns_fresh_instances_Formats :
  let w : world Formats.class_name string :=
    {| this := ObjectFactory_new; store := ∅ |} in
  _objects (this w) !! "a" = None
  ∧ Formats.is_base_of Formats.Reader Formats.JsonReader = true
  ∧ constructor Formats.JsonReader = constructs
  ∧ let w0 := (Register_obj Formats.Reader Formats.JsonReader "a" w).2 in
    ∀ h,
      let first := Create id "a" {| this := this w0; store := h |} in
      ∃ a1,
        first.1 = Returned (Ptr a1)
        ∧ h !! a1 = None
        ∧ store first.2 !! a1 = Some (Object Formats.JsonReader)
        ∧ points_to Formats.is_base_of Formats.Reader (store first.2) (Ptr a1)
        ∧ (∀ a, a ≠ a1 → store first.2 !! a = h !! a)
        ∧ this first.2 = this w0
        ∧ ∀ rs h',
            is_Some (h' !! a1) →
            let w' := {| this := this (run id Formats.Reader rs first.2);
                         store := h' |} in
            let second := Create id "a" w' in
            ∃ a2,
              second.1 = Returned (Ptr a2)
              ∧ a2 ≠ a1
              ∧ h' !! a2 = None
              ∧ store second.2 !! a2 = Some (Object Formats.JsonReader)
              ∧ points_to Formats.is_base_of Formats.Reader (store second.2) (Ptr a2)
              ∧ store second.2 !! a1 = h' !! a1
              ∧ this second.2 = this w'.
Proof.
  intros w. split; [reflexivity|]. split; [reflexivity|]. split; [reflexivity|].
  apply (Create_returns_fresh_instances Formats.is_base_of id Formats.Reader
           w "a" Formats.JsonReader); reflexivity.
Defined.

Lemma getObjects_after_three_registrations_Formats :
  let w : world Formats.class_name string :=
    {| this := ObjectFactory_new; store := ∅ |} in
  let ca := create_policy_new Formats.Reader Formats.JsonReader in
  let cb := create_policy_new Formats.Reader Formats.XmlReader in
  let cc := create_policy_new Formats.Reader Formats.Reader in
  "a" ≠ "b" ∧ "a" ≠ "c" ∧ "b" ≠ "c"
  ∧ _objects (this w) !! "a" = None
  ∧ _objects (this w) !! "b" = None
  ∧ _objects (this w) !! "c" = None
  ∧ let w3 := (Register "c" cc (Register "b" cb (Register "a" ca w).2).2).2 in
    ∃ m,
      getObjects w3 = (Returned m, w3)
      ∧ m !! "a" = Some ca ∧ m !! "b" = Some cb ∧ m !! "c" = Some cc
      ∧ (∀ key, key ≠ "a" → key ≠ "b" → key ≠ "c" → m !! key = _objects (this w) !! key)
      ∧ dom m = {["a"; "b"; "c"]} ∪ dom (_objects (this w))
      ∧ (this w = ObjectFactory_new →
           dom m = {["a"; "b"; "c"]} ∧ size m = 3
           ∧ m = <["c" := cc]> (<["b" := cb]> (<["a" := ca]> ∅))).
Proof.
  intros w ca cb cc.
  split; [discriminate|]. split; [discriminate|]. split; [discriminate|].
  split; [reflexivity|]. split; [reflexivity|]. split; [reflexivity|].
  apply (getObjects_after_three_registrations w "a" "b" "c" ca cb cc);
    (discriminate || reflexivity).
Defined.

Lemma instances_are_independent_Formats :
  let s : process Formats.class_name Formats.values :=
    process_start Formats.values in
  let creator := create_policy_new Formats.Reader Formats.JsonReader in
  let x : Formats.values Formats.std_string := "x" in
  let x' : Formats.values Formats.int := 7%Z in
  let i := Formats.Readers in
  let j := Formats.Writers in
  i ≠ j
  ∧ let s' := (at_Instance Formats.values i (Register x creator) s).2 in
    statics Formats.values s' j = statics Formats.values s j
    ∧ (at_Instance Formats.values j (IsRegistered x') s').1
      = (at_Instance Formats.values j (IsRegistered x') s).1
    ∧ (at_Instance Formats.values j getObjects s').1
      = (at_Instance Formats.values j getObjects s).1
    ∧ (∀ r : request Formats.class_name (Formats.values i.1),
         let s'' := (at_Instance Formats.values i
                       (exec (Formats.lexical_cast_of i.1) i.2 r) s).2 in
         statics Formats.values s'' j = statics Formats.values s j
         ∧ (at_Instance Formats.values j (IsRegistered x') s'').1
           = (at_Instance Formats.values j (IsRegistered x') s).1).
Proof.
  intros s creator x x' i j. split; [discriminate|].
  apply (instances_are_independent Formats.values Formats.lexical_cast_of
           s i j x creator x').
  discriminate.
Defined.

Lemma registration_is_permanent_Formats :
  (IsRegistered "json" Formats.readers).1 = Returned true
  ∧ ∀ rs,
      (IsRegistered "json" (run id Formats.Reader rs Formats.readers)).1 = Returned true
      ∧ _objects (this (run id Formats.Reader rs Formats.readers)) !! "json"
        = _objects (this Formats.readers) !! "json".
Proof.
  split; [reflexivity|].
  apply (registration_is_permanent id Formats.Reader Formats.readers "json").
  reflexivity.
Defined.

(** ** One factory: how the calls compose *)

Section Compositions.

Context {class_t : Type} `{Constructible class_t}.
Context (is_base_of : class_t → class_t → bool).
Context {key_t : Type} `{Countable key_t}.
Context (lexical_cast : key_t → string) (abstract_type : class_t).

Implicit Types (w : world class_t key_t) (key : key_t).
Implicit Types (creator : creator_t class_t key_t).

Lemma world_eq w1 w2 :
  _objects (this w1) = _objects (this w2) → store w1 = store w2 → w1 = w2.
Proof. destruct w1 as [[m1] h1], w2 as [[m2] h2]. simpl. by intros -> ->. Qed.

Lemma store_Register w key creator : store (Register key creator w).2 = store w.
Proof. by rewrite Register_eq. Qed.

(** [Register] as a union: the old entries are on the left and win. *)
Lemma Register_union w key creator :
  _objects (this (Register key creator w).2) = _objects (this w) ∪ {[key := creator]}.
Proof.
  apply map_eq. intros key'. rewrite Register_lookup, lookup_union.
  destruct (_objects (this w) !! key') as [c|] eqn:E; simpl.
  - by destruct ({[key := creator]} !! key').
  - destruct (decide (key = key')) as [<-|Hne].
    + by rewrite lookup_singleton_eq.
    + by rewrite lookup_singleton_ne.
Qed.

Lemma exec_token_eq w (T : class_t) key :
  (exec lexical_cast abstract_type (call_ObjectFactoryRegister T key) w).2
  = (Register key (create_policy_new abstract_type T) w).2.
Proof.
  simpl. unfold bind, ObjectFactoryRegister_new, bind, ret.
  by rewrite Register_eq.
Qed.

Lemma exec_Register_eq w key creator :
  (exec lexical_cast abstract_type (call_Register key creator) w).2
  = (Register key creator w).2.
Proof. simpl. unfold bind, ret. by rewrite Register_eq. Qed.

Lemma run_cons r rs w :
  run lexical_cast abstract_type (r :: rs) w
  = run lexical_cast abstract_type rs (exec lexical_cast abstract_type r w).2.
Proof. reflexivity. Qed.

Lemma run_registrations (l : list (key_t * creator_t class_t key_t)) w :
  _objects (this (run lexical_cast abstract_type
                    ((fun v => call_Register v.1 v.2) <$> l) w))
  = _objects (this w) ∪ list_to_map l
  ∧ store (run lexical_cast abstract_type ((fun v => call_Register v.1 v.2) <$> l) w)
    = store w.
Proof.
  revert w. induction l as [|[k c] l IH]; intros w.
  - simpl. by rewrite (right_id_L ∅ (∪)).
  - rewrite fmap_cons, !run_cons. cbn [fst snd]. rewrite exec_Register_eq.
    destruct (IH (Register k c w).2) as [-> ->].
    rewrite Register_union, store_Register. split; [|done].
    rewrite <-(assoc_L (∪)). f_equal.
    rewrite list_to_map_cons. by rewrite insert_union_singleton_l.
Qed.

(** *** Sequences of registrations *)

Lemma Register_swap w key1 key2 (c1 c2 : creator_t class_t key_t) :
  key1 ≠ key2 →
  (Register key2 c2 (Register key1 c1 w).2).2
  = (Register key1 c1 (Register key2 c2 w).2).2.
Proof.
  intros Hne. apply world_eq.
  - apply map_eq. intros key. rewrite !Register_lookup.
    destruct (_objects (this w) !! key) as [c|]; [done|].
    destruct (decide (key1 = key)) as [E1|N1], (decide (key2 = key)) as [E2|N2];
      try done. congruence.
  - by rewrite !store_Register.
Qed.

(** X1. Two registrations under different keys commute: the factory and the
    free store are the same after either order, and so is what every later
    call returns. *)
Theorem Register_commutes w key1 key2 (c1 c2 : creator_t class_t key_t) :
  key1 ≠ key2 →
  (Register key2 c2 (Register key1 c1 w).2).2
  = (Register key1 c1 (Register key2 c2 w).2).2
  ∧ ∀ r, exec lexical_cast abstract_type r (Register key2 c2 (Register key1 c1 w).2).2
         = exec lexical_cast abstract_type r (Register key1 c1 (Register key2 c2 w).2).2.
Proof.
  intros Hne. split; [by apply Register_swap|].
  intros r. by rewrite (Register_swap w key1 key2 c1 c2 Hne).
Qed.

(** X2. After a sequence of calls of [Register], the map is the old map with
    the registrations of the sequence added behind it: an old entry stays, and
    a key that was free has the creator of its first registration in the
    sequence, whatever is registered under it later. The free store is
    untouched. *)
Theorem registrations_first_wins (l : list (key_t * creator_t class_t key_t)) w :
  let w' := run lexical_cast abstract_type ((fun v => call_Register v.1 v.2) <$> l) w in
  _objects (this w') = _objects (this w) ∪ list_to_map l
  ∧ store w' = store w
  ∧ (∀ key creator, _objects (this w) !! key = Some creator →
       _objects (this w') !! key = Some creator)
  ∧ (∀ key creator l1 l2,
       l = l1 ++ (key, creator) :: l2 → key ∉ l1.*1 →
       _objects (this w) !! key = None →
       _objects (this w') !! key = Some creator)
  ∧ (∀ key, _objects (this w) !! key = None → key ∉ l.*1 →
       _objects (this w') !! key = None).
Proof.
  intros w'. destruct (run_registrations l w) as [Hm Hs].
  fold w' in Hm, Hs. rewrite Hm. split_and!; [done|done|..].
  - intros key creator Hk. apply lookup_union_Some_raw. by left.
  - intros key creator l1 l2 -> Hl1 Hk. rewrite lookup_union_r by done.
    rewrite list_to_map_app, lookup_union_r.
    + by rewrite list_to_map_cons, lookup_insert_eq.
    + by apply not_elem_of_list_to_map_1.
  - intros key Hk Hl. rewrite lookup_union_r by done.
    by apply not_elem_of_list_to_map_1.
Qed.

Lemma run_tokens (ds : list (class_t * key_t)) w :
  run lexical_cast abstract_type
    ((fun d => call_ObjectFactoryRegister d.1 d.2) <$> ds) w
  = run lexical_cast abstract_type
      ((fun v => call_Register v.1 v.2)
         <$> ((fun d => (d.2, create_policy_new abstract_type d.1)) <$> ds)) w.
Proof.
  revert w. induction ds as [|[T k] ds IH]; intros w; [done|].
  rewrite !fmap_cons, !run_cons. cbv beta. cbn [fst snd].
  rewrite exec_token_eq, exec_Register_eq. apply IH.
Qed.

Lemma create_policy_new_inj (parent A B : class_t) :
  create_policy_new (key_t := key_t) parent A = create_policy_new parent B → A = B.
Proof. by intros [= ->]. Qed.

(** X3. The order in which registration tokens for different keys are
    constructed does not matter: two sequences of constructions that are
    permutations of each other leave the same factory and free store. *)
Theorem token_order_is_irrelevant (ds1 ds2 : list (class_t * key_t)) w :
  ds1 ≡ₚ ds2 → NoDup ds1.*2 →
  run lexical_cast abstract_type
    ((fun d => call_ObjectFactoryRegister d.1 d.2) <$> ds1) w
  = run lexical_cast abstract_type
      ((fun d => call_ObjectFactoryRegister d.1 d.2) <$> ds2) w.
Proof.
  intros Hp Hnd. rewrite !run_tokens.
  set (f := fun d : class_t * key_t => (d.2, create_policy_new abstract_type d.1)).
  destruct (run_registrations (f <$> ds1) w) as [Hm1 Hs1].
  destruct (run_registrations (f <$> ds2) w) as [Hm2 Hs2].
  apply world_eq.
  - rewrite Hm1, Hm2. f_equal. apply list_to_map_proper.
    + rewrite <-list_fmap_compose.
      by replace (fst ∘ f) with (snd : class_t * key_t → key_t).
    + by apply fmap_Permutation.
  - by rewrite Hs1, Hs2.
Qed.

(** X4. With two tokens for different classes under one free key the order
    decides: the class of the token constructed first is the one that
    [Create] makes, its constructor completing, and the two orders leave
    different factories. *)
Theorem token_order_decides_duplicates w key (A B : class_t) :
  A ≠ B →
  constructor A = constructs →
  constructor B = constructs →
  _objects (this w) !! key = None →
  let AB := run lexical_cast abstract_type
              [call_ObjectFactoryRegister A key; call_ObjectFactoryRegister B key] w in
  let BA := run lexical_cast abstract_type
              [call_ObjectFactoryRegister B key; call_ObjectFactoryRegister A key] w in
  this AB ≠ this BA
  ∧ (∃ a, (Create lexical_cast key AB).1 = Returned (Ptr a)
          ∧ store (Create lexical_cast key AB).2 !! a = Some (Object A))
  ∧ (∃ a, (Create lexical_cast key BA).1 = Returned (Ptr a)
          ∧ store (Create lexical_cast key BA).2 !! a = Some (Object B)).
Proof.
  intros Hne HcA HcB Hk AB BA.
  assert (HAB : _objects (this AB) !! key = Some (create_policy_new abstract_type A)).
  { unfold AB. rewrite !run_cons, !exec_token_eq.
    cbn [run foldl fst snd]. rewrite !Register_lookup, Hk. by rewrite decide_True. }
  assert (HBA : _objects (this BA) !! key = Some (create_policy_new abstract_type B)).
  { unfold BA. rewrite !run_cons, !exec_token_eq.
    cbn [run foldl fst snd]. rewrite !Register_lookup, Hk. by rewrite decide_True. }
  split_and!.
  - intros E. rewrite E, HBA in HAB. injection HAB as HAB. by subst.
  - destruct (create_policy_new_fresh (key_t := key_t) abstract_type A AB HcA)
      as (a & Ea & Fa).
    exists a. rewrite (Create_found _ _ _ _ HAB), Ea. cbn [fst snd store].
    split; [done|]. by rewrite lookup_insert_eq.
  - destruct (create_policy_new_fresh (key_t := key_t) abstract_type B BA HcB)
      as (a & Ea & Fa).
    exists a. rewrite (Create_found _ _ _ _ HBA), Ea. cbn [fst snd store].
    split; [done|]. by rewrite lookup_insert_eq.
Qed.

(** *** The size of the map *)

(** X5. [Register] adds at most one entry: the keys afterwards are the old
    keys and the given one, every old entry is kept, and the number of
    entries grows by one exactly when the key was not registered. *)
Theorem Register_adds_at_most_one w key creator :
  let m := _objects (this w) in
  let m' := _objects (this (Register key creator w).2) in
  dom m' = {[key]} ∪ dom m
  ∧ m ⊆ m'
  ∧ size m' = match m !! key with
              | Some _ => size m
              | None => S (size m)
              end.
Proof using Type.
  clear is_base_of lexical_cast abstract_type.
  intros m m'. unfold m'. rewrite Register_eq. cbn [this _objects snd]. fold m.
  destruct (m !! key) as [c|] eqn:E.
  - split_and!; [|done|done].
    apply set_eq. intros k. rewrite elem_of_union, elem_of_singleton.
    split; [tauto|]. intros [->|?]; [|done]. by apply elem_of_dom.
  - split_and!.
    + by rewrite dom_insert_L.
    + by apply insert_subseteq.
    + by apply map_size_insert_None.
Qed.

(** *** Asking before creating *)

Lemma Register_map_Forall (P : creator_t class_t key_t → Prop) w key creator :
  map_Forall (fun _ c => P c) (_objects (this w)) →
  P creator →
  map_Forall (fun _ c => P c) (_objects (this (Register key creator w).2)).
Proof.
  intros Hinv Hc k c. rewrite Register_lookup.
  destruct (_objects (this w) !! k) as [c'|] eqn:E.
  - intros [= <-]. by apply (Hinv k).
  - destruct (decide (key = k)); [|done]. by intros [= <-].
Qed.

Lemma create_policy_new_returns (parent T : class_t) :
  constructor T = constructs →
  returns (create_policy_new (key_t := key_t) parent T).
Proof.
  intros HT w. destruct (create_policy_new_fresh parent T w HT) as (a & E & _).
  eauto.
Qed.

(** X6. In a factory whose creators return, [IsRegistered] predicts
    [Create]: it answers [true] exactly when [Create] with the same key in
    the same state returns a pointer, and [false] exactly when [Create]
    throws. *)
Theorem IsRegistered_predicts_Create w key :
  map_Forall (fun _ c => returns c) (_objects (this w)) →
  ((IsRegistered key w).1 = Returned true
     ↔ ∃ p, (Create lexical_cast key w).1 = Returned p)
  ∧ ((IsRegistered key w).1 = Returned false
     ↔ ∃ e, (Create lexical_cast key w).1 = Thrown e).
Proof.
  intros Hret. rewrite IsRegistered_eq. cbn [fst].
  destruct (_objects (this w) !! key) as [c|] eqn:E.
  - rewrite (Create_found _ _ _ _ E).
    destruct (Hret key c E w) as (p & w' & ->). cbn [fst]. split.
    + split; [eauto|done].
    + split; [done|]. by intros [e ?].
  - rewrite (Create_not_found _ _ _ E). cbn [fst]. split.
    + split; [done|]. by intros [p ?].
    + split; [eauto|done].
Qed.

(** X7. The map that [getObjects] returns agrees with the other calls: its
    keys are the keys for which [IsRegistered] answers [true], the creator it
    has for a key is the one that [Create] calls for that key, and for a key
    that it does not have [Create] throws its exception and changes
    nothing. *)
Theorem getObjects_agrees_with_lookup w :
  ∃ m, getObjects w = (Returned m, w)
       ∧ (∀ key, key ∈ dom m ↔ (IsRegistered key w).1 = Returned true)
       ∧ (∀ key creator, m !! key = Some creator →
            Create lexical_cast key w = call creator w)
       ∧ (∀ key, key ∉ dom m →
            Create lexical_cast key w
            = (Thrown (runtime_error
                         ("factory key " +:+ lexical_cast key +:+ " not found.")), w)).
Proof.
  exists (_objects (this w)). split_and!.
  - done.
  - intros key. rewrite IsRegistered_eq, elem_of_dom. cbn [fst]. split.
    + intros Hk. f_equal. by apply bool_decide_eq_true.
    + intros [= Hk]. by apply bool_decide_eq_true in Hk.
  - intros key creator Hk. by rewrite (Create_found _ _ _ _ Hk).
  - intros key Hk. apply not_elem_of_dom in Hk.
    by rewrite (Create_not_found _ _ _ Hk).
Qed.

(** *** The objects that [Create] makes *)










End Compositions.

(** ** The message of the exception of [Create] *)

Section Messages.

Context {class_t : Type} `{Constructible class_t}.
Context {key_t1 key_t2 : Type} `{Countable key_t1} `{Countable key_t2}.
Context (lexical_cast1 : key_t1 → string) (lexical_cast2 : key_t2 → string).

Lemma string_app_length (a b : string) :
  String.length (a +:+ b) = String.length a + String.length b.
Proof. induction a as [|c a IH]; simpl; [done|]. by rewrite IH. Qed.

Lemma string_app_inj_r (suffix a b : string) :
  a +:+ suffix = b +:+ suffix → a = b.
Proof.
  revert b. induction a as [|c a IH]; intros [|c' b] E.
  - done.
  - apply (f_equal String.length) in E. rewrite !string_app_length in E.
    simpl in E. exfalso. lia.
  - apply (f_equal String.length) in E. rewrite !string_app_length in E.
    simpl in E. exfalso. lia.
  - injection E as -> E. f_equal. by apply IH.
Qed.

(** X15. The exception that [Create] throws for want of a creator tells
    which key was missing: when two calls of [Create], on factories of
    whatever key types, with keys that are not registered, throw the same
    exception, the two keys have the same string form. *)
Theorem not_found_names_the_key
    (w1 : world class_t key_t1) (w2 : world class_t key_t2) key1 key2 e :
  _objects (this w1) !! key1 = None →
  _objects (this w2) !! key2 = None →
  (Create lexical_cast1 key1 w1).1 = Thrown e →
  (Create lexical_cast2 key2 w2).1 = Thrown e →
  lexical_cast1 key1 = lexical_cast2 key2.
Proof.
  intros E1 E2.
  rewrite (Create_not_found _ _ _ E1), (Create_not_found _ _ _ E2). cbn [fst].
  intros [= <-] [= E]. symmetry.
  by apply (string_app_inj_r " not found." (lexical_cast2 key2) (lexical_cast1 key1)).
Qed.

End Messages.

(** ** The factories of a program: statics and their initialisation *)

Section Initialisation.

Context {class_t : Type} `{Constructible class_t} `{EqDecision class_t}.
Context {type_name : Type} `{EqDecision type_name}.
Context (values : type_name → Type).
Context `{∀ K, EqDecision (values K)} `{∀ K, Countable (values K)}.
Context (lexical_cast_of : ∀ K, values K → string).

Local Abbreviation instantiation := (instantiation class_t type_name).

Implicit Types (s : process class_t values) (i j : instantiation).

(** What a member function called on [Instance()] of [i] runs on. *)
Local Abbreviation world_of s i :=
  {| this := default ObjectFactory_new (statics values s i);
     store := free_store values s |}.

Lemma world_of_at_Instance {A} i (f : M class_t (values i.1) A) s :
  world_of (at_Instance values i f s).2 i = (f (world_of s i)).2.
Proof.
  destruct (at_Instance_eq values i f s) as (_ & -> & ->).
  simpl. by destruct (f _).2.
Qed.

Lemma world_of_run_static_cons r rs s :
  run_static values lexical_cast_of (r :: rs) s
  = run_static values lexical_cast_of rs (exec_static values lexical_cast_of r s).2.
Proof. reflexivity. Qed.

(** X9. The static of [Instance()] keeps what is registered in it from one
    call of [Instance()] to the next: after [Instance().Register(key, c)] a
    further call of [Instance()] constructs nothing,
    [Instance().IsRegistered(key)] answers [true], and, when the key was
    free, [Instance().Create(key)] ends as [c] ends, called on the static with
    [c] in it. *)
Theorem Instance_keeps_registrations s i (key : values i.1)
    (creator : creator_t class_t (values i.1)) :
  let s1 := (at_Instance values i (Register key creator) s).2 in
  (Instance values i s1).2 = s1
  ∧ (at_Instance values i (IsRegistered key) s1).1 = Returned true
  ∧ (_objects (default ObjectFactory_new (statics values s i)) !! key = None →
       (at_Instance values i (Create (lexical_cast_of i.1) key) s1).1
       = (call creator
            {| this := {| _objects :=
                            <[key := creator]>
                              (_objects (default ObjectFactory_new (statics values s i))) |};
               store := free_store values s |}).1).
Proof.
  intros s1.
  pose proof (world_of_at_Instance i (Register key creator) s) as Hw. fold s1 in Hw.
  assert (Hk : is_Some (_objects (this (world_of s1 i)) !! key)).
  { rewrite Hw, Register_lookup.
    destruct (_objects (this (world_of s i)) !! key); [eauto|].
    rewrite decide_True by done. eauto. }
  split_and!.
  - destruct (at_Instance_eq values i (Register key creator) s) as (_ & E & _).
    fold s1 in E. unfold Instance. by rewrite E.
  - destruct (at_Instance_eq values i (IsRegistered key) s1) as (-> & _).
    rewrite IsRegistered_eq. cbn [fst]. f_equal. by apply bool_decide_eq_true.
  - intros Hfree.
    destruct (at_Instance_eq values i (Create (lexical_cast_of i.1) key) s1) as (-> & _).
    assert (Hc : _objects (this (world_of s1 i)) !! key = Some creator).
    { rewrite Hw, Register_lookup. cbn [this]. rewrite Hfree.
      by rewrite decide_True. }
    rewrite (Create_found _ _ _ _ Hc). rewrite Hw, Register_eq.
    cbn [snd this]. by rewrite Hfree.
Qed.

(** X10. A static that no call of [Instance()] has constructed yet is
    constructed empty by the first call: [IsRegistered] answers [false] for
    every key, [Create] throws for every key, [getObjects] returns the empty
    map, and afterwards the static exists. *)
Theorem first_Instance_is_empty s i (key : values i.1) :
  statics values s i = None →
  (at_Instance values i (IsRegistered key) s).1 = Returned false
  ∧ (at_Instance values i (Create (lexical_cast_of i.1) key) s).1
    = Thrown (runtime_error ("factory key " +:+ lexical_cast_of i.1 key +:+ " not found."))
  ∧ (at_Instance values i getObjects s).1 = Returned ∅
  ∧ statics values (at_Instance values i (IsRegistered key) s).2 i
    = Some ObjectFactory_new.
Proof.
  intros Hs. split_and!.
  - destruct (at_Instance_eq values i (IsRegistered key) s) as (-> & _).
    by rewrite Hs.
  - destruct (at_Instance_eq values i (Create (lexical_cast_of i.1) key) s) as (-> & _).
    rewrite Hs. by rewrite Create_not_found.
  - destruct (at_Instance_eq values i getObjects s) as (-> & _). by rewrite Hs.
  - destruct (at_Instance_eq values i (IsRegistered key) s) as (_ & -> & _).
    by rewrite Hs.
Qed.

(** X11. What is registered in the static of a factory stays registered for
    the rest of the program: once [Instance().IsRegistered(key)] answers
    [true], it answers [true] after any calls of the program on this and on
    its other factories, and the creator under [key] is the same. *)
Theorem static_registration_is_permanent s i (key : values i.1) :
  (at_Instance values i (IsRegistered key) s).1 = Returned true →
  ∀ rs,
    let s' := run_static values lexical_cast_of rs s in
    (at_Instance values i (IsRegistered key) s').1 = Returned true
    ∧ _objects (default ObjectFactory_new (statics values s' i)) !! key = _objects (default ObjectFactory_new (statics values s i)) !! key.
Proof.
  intros Ht rs s'.
  destruct (at_Instance_eq values i (IsRegistered key) s) as (E & _).
  rewrite E, IsRegistered_eq in Ht. injection Ht as Ht.
  apply bool_decide_eq_true in Ht as [creator Hc].
  assert (Hs : ∃ f, statics values s i = Some f ∧ _objects f !! key = Some creator).
  { destruct (statics values s i) as [f|]; [eauto|done]. }
  destruct (run_static_lookup_Some values lexical_cast_of rs s i key creator Hs)
    as (f' & Hf' & Hk').
  fold s' in Hf'.
  destruct (at_Instance_eq values i (IsRegistered key) s') as (-> & _).
  rewrite IsRegistered_eq. cbn [fst this] in *. rewrite Hf', Hc.
  simpl. by rewrite Hk'.
Qed.


(** X13. Self-registration: after the token of a [REGISTER_OBJECT(factory,
    object, key)] with a key that was free, for a class whose constructor
    completes, is constructed, the factory
    answers [true] to [IsRegistered(key)] and [Create(key)] returns a pointer
    to a new object of class [object]; the construction of the token itself
    allocates nothing. *)
Theorem REGISTER_OBJECT_makes_creatable s (factory : instantiation)
    (object : class_t) (key : values factory.1) :
  _objects (default ObjectFactory_new (statics values s factory)) !! key = None →
  constructor object = constructs →
  let s1 := (exec_static values lexical_cast_of
               (REGISTER_OBJECT values factory object key) s).2 in
  let made := at_Instance values factory (Create (lexical_cast_of factory.1) key) s1 in
  free_store values s1 = free_store values s
  ∧ (at_Instance values factory (IsRegistered key) s1).1 = Returned true
  ∧ ∃ a, made.1 = Returned (Ptr a)
         ∧ free_store values s !! a = None
         ∧ free_store values made.2 !! a = Some (Object object)
         ∧ (∀ a', a' ≠ a → free_store values made.2 !! a' = free_store values s !! a').
Proof.
  intros Hfree Hctor s1 made.
  pose proof (world_of_at_Instance factory
                (exec (lexical_cast_of factory.1) factory.2
                   (call_ObjectFactoryRegister object key)) s) as Hw.
  change (at_Instance values factory _ s).2 with s1 in Hw.
  rewrite (exec_token_eq (lexical_cast_of factory.1) factory.2) in Hw.
  assert (Hst : free_store values s1 = free_store values s).
  { apply (f_equal store) in Hw. by rewrite store_Register in Hw. }
  assert (Hc : _objects (this (world_of s1 factory)) !! key
               = Some (create_policy_new factory.2 object)).
  { rewrite Hw, Register_lookup. cbn [this]. rewrite Hfree.
    by rewrite decide_True. }
  split_and!.
  - done.
  - destruct (at_Instance_eq values factory (IsRegistered key) s1) as (-> & _).
    rewrite IsRegistered_eq, Hc. done.
  - destruct (create_policy_new_fresh (key_t := values factory.1) factory.2 object
                (world_of s1 factory) Hctor) as (a & Ea & Fa).
    exists a.
    destruct (at_Instance_eq values factory
                (Create (lexical_cast_of factory.1) key) s1) as (E1 & _ & E3).
    fold made in E1, E3. rewrite E1, E3, (Create_found _ _ _ _ Hc), Ea.
    cbn [fst snd store] in *. rewrite Hst in *. split_and!.
    + done.
    + done.
    + by rewrite lookup_insert_eq.
    + intros a' Hne. by rewrite lookup_insert_ne.
Qed.

(** *** The order of initialisation *)

(** Two states of the program with the same statics and free store. *)
Local Abbreviation same s1 s2 :=
  ((∀ x, statics values s1 x = statics values s2 x)
   ∧ free_store values s1 = free_store values s2).

Local Abbreviation declaration := (declaration class_t values).

Lemma at_Instance_same {A} i (f : M class_t (values i.1) A) s s' :
  same s s' → same (at_Instance values i f s).2 (at_Instance values i f s').2.
Proof.
  intros [Hst Hfs].
  destruct (at_Instance_eq values i f s) as (_ & E2 & E3).
  destruct (at_Instance_eq values i f s') as (_ & E2' & E3').
  split.
  - intros x. destruct (decide (i = x)) as [<-|Hne].
    + by rewrite E2, E2', Hst, Hfs.
    + by rewrite !statics_at_Instance_ne.
  - by rewrite E3, E3', Hst, Hfs.
Qed.

Lemma declared_static_eq i (T : class_t) (k : values i.1) s :
  statics values
    (exec_static values lexical_cast_of (REGISTER_OBJECT values i T k) s).2 i
  = Some (this (Register k (create_policy_new i.2 T) (world_of s i)).2)
  ∧ free_store values
      (exec_static values lexical_cast_of (REGISTER_OBJECT values i T k) s).2
    = free_store values s.
Proof.
  unfold exec_static, REGISTER_OBJECT. cbn [target request_of].
  destruct (at_Instance_eq values i
              (exec (lexical_cast_of i.1) i.2 (call_ObjectFactoryRegister T k)) s)
    as (_ & -> & ->).
  by rewrite (exec_token_eq (lexical_cast_of i.1) i.2), store_Register.
Qed.

Lemma declared_static_ne i (T : class_t) (k : values i.1) s x :
  i ≠ x →
  statics values
    (exec_static values lexical_cast_of (REGISTER_OBJECT values i T k) s).2 x
  = statics values s x.
Proof. intros Hne. by apply statics_at_Instance_ne. Qed.

Lemma declared_swap (d1 d2 : declaration) s :
  place values d1 ≠ place values d2 →
  same (exec_static values lexical_cast_of (declared values d2)
          (exec_static values lexical_cast_of (declared values d1) s).2).2
       (exec_static values lexical_cast_of (declared values d1)
          (exec_static values lexical_cast_of (declared values d2) s).2).2.
Proof.
  destruct d1 as [i [A k1]], d2 as [j [B k2]].
  unfold place, declared. cbn [projT1 projT2 fst snd].
  intros Hne. split.
  - intros x.
    destruct (decide (i = j)) as [<-|Hij].
    + assert (Hk : k1 ≠ k2) by (intros ->; by apply Hne).
      destruct (decide (i = x)) as [<-|Hx].
      * destruct (declared_static_eq i B k2
                    (exec_static values lexical_cast_of
                       (REGISTER_OBJECT values i A k1) s).2) as [-> _].
        destruct (declared_static_eq i A k1
                    (exec_static values lexical_cast_of
                       (REGISTER_OBJECT values i B k2) s).2) as [-> _].
        destruct (declared_static_eq i A k1 s) as [-> ->].
        destruct (declared_static_eq i B k2 s) as [-> ->].
        simpl. f_equal.
        pose proof (Register_swap (world_of s i) k1 k2
                      (create_policy_new i.2 A) (create_policy_new i.2 B) Hk) as C.
        rewrite !Register_eq in C. rewrite !Register_eq.
        cbn [this store snd _objects] in *. by injection C as ->.
      * by rewrite !declared_static_ne.
    + destruct (decide (i = x)) as [<-|Hx].
      * rewrite declared_static_ne by done.
        destruct (declared_static_eq i A k1
                    (exec_static values lexical_cast_of
                       (REGISTER_OBJECT values j B k2) s).2) as [-> _].
        destruct (declared_static_eq i A k1 s) as [-> _].
        destruct (declared_static_eq j B k2 s) as [_ ->].
        by rewrite declared_static_ne by done.
      * rewrite (declared_static_ne i A k1) by done.
        destruct (decide (j = x)) as [<-|Hy].
        -- destruct (declared_static_eq j B k2
                       (exec_static values lexical_cast_of
                          (REGISTER_OBJECT values i A k1) s).2) as [-> _].
           destruct (declared_static_eq j B k2 s) as [-> _].
           destruct (declared_static_eq i A k1 s) as [_ ->].
           by rewrite declared_static_ne by done.
        -- by rewrite !declared_static_ne by done.
  - destruct (declared_static_eq j B k2
                (exec_static values lexical_cast_of
                   (REGISTER_OBJECT values i A k1) s).2) as [_ ->].
    destruct (declared_static_eq i A k1
                (exec_static values lexical_cast_of
                   (REGISTER_OBJECT values j B k2) s).2) as [_ ->].
    destruct (declared_static_eq i A k1 s) as [_ ->].
    by destruct (declared_static_eq j B k2 s) as [_ ->].
Qed.

Lemma run_static_same rs s s' :
  same s s' →
  same (run_static values lexical_cast_of rs s) (run_static values lexical_cast_of rs s').
Proof.
  revert s s'. induction rs as [|r rs IH]; intros s s' Hs; [done|].
  rewrite !world_of_run_static_cons. apply IH. by apply at_Instance_same.
Qed.

Lemma initialise_cons (d : declaration) ds s :
  initialise values lexical_cast_of (d :: ds) s
  = initialise values lexical_cast_of ds
      (exec_static values lexical_cast_of (declared values d) s).2.
Proof. reflexivity. Qed.

Lemma initialise_perm (ds1 ds2 : list declaration) :
  ds1 ≡ₚ ds2 →
  NoDup (place values <$> ds1) →
  ∀ s s', same s s' →
    same (initialise values lexical_cast_of ds1 s)
         (initialise values lexical_cast_of ds2 s').
Proof.
  induction 1 as [|d ds1 ds2 Hp IH|d1 d2 ds|ds1 ds2 ds3 Hp1 IH1 Hp2 IH2];
    intros Hnd s s' Hs.
  - done.
  - rewrite !initialise_cons.
    rewrite fmap_cons in Hnd. apply NoDup_cons in Hnd as [_ Hnd].
    apply IH; [done|]. by apply at_Instance_same.
  - rewrite !initialise_cons.
    rewrite !fmap_cons in Hnd.
    apply NoDup_cons in Hnd as [Hd2 _].
    apply not_elem_of_cons in Hd2 as [Hd2 _].
    apply run_static_same.
    destruct (declared_swap d2 d1 s Hd2) as [Sst Sfs].
    assert (Hr : same
              (exec_static values lexical_cast_of (declared values d2)
                 (exec_static values lexical_cast_of (declared values d1) s).2).2
              (exec_static values lexical_cast_of (declared values d2)
                 (exec_static values lexical_cast_of (declared values d1) s').2).2).
    { by do 2 apply at_Instance_same. }
    destruct Hr as [Rst Rfs]. split.
    + intros x. by rewrite Sst, Rst.
    + by rewrite Sfs, Rfs.
  - assert (Hnd2 : NoDup (place values <$> ds2)).
    { assert (P : place values <$> ds1 ≡ₚ place values <$> ds2)
        by by apply fmap_Permutation.
      by rewrite <-P. }
    destruct (IH1 Hnd s s' Hs) as [A1 A2].
    assert (Hs' : same s' s') by done.
    destruct (IH2 Hnd2 s' s' Hs') as [B1 B2]. split.
    + intros x. by rewrite A1, B1.
    + by rewrite A2, B2.
Qed.

(** X14. The order in which the tokens of the [REGISTER_OBJECT]
    declarations of a program are constructed does not matter, as long as no
    two of them name the same factory and key: two orders of the same
    declarations leave every static and the free store the same. *)
Theorem initialisation_order_is_irrelevant (ds1 ds2 : list declaration) s :
  ds1 ≡ₚ ds2 →
  NoDup (place values <$> ds1) →
  (∀ i, statics values (initialise values lexical_cast_of ds1 s) i
        = statics values (initialise values lexical_cast_of ds2 s) i)
  ∧ free_store values (initialise values lexical_cast_of ds1 s)
    = free_store values (initialise values lexical_cast_of ds2 s).
Proof.
  intros Hp Hnd. by apply initialise_perm.
Qed.

End Initialisation.

(** ** The further properties at work on the factories of [Formats] *)

Lemma Register_commutes_Formats :
  let w : world Formats.class_name string :=
    {| this := ObjectFactory_new; store := ∅ |} in
  let c1 := create_policy_new Formats.Reader Formats.JsonReader in
  let c2 := create_policy_new Formats.Reader Formats.XmlReader in
  "json" ≠ "xml"
  ∧ (Register "xml" c2 (Register "json" c1 w).2).2
    = (Register "json" c1 (Register "xml" c2 w).2).2
  ∧ ∀ r, exec id Formats.Reader r (Register "xml" c2 (Register "json" c1 w).2).2
         = exec id Formats.Reader r (Register "json" c1 (Register "xml" c2 w).2).2.
Proof.
  intros w c1 c2. split; [discriminate|].
  apply (Register_commutes id Formats.Reader w "json" "xml" c1 c2). discriminate.
Defined.

Lemma token_order_is_irrelevant_Formats :
  let w : world Formats.class_name string :=
    {| this := ObjectFactory_new; store := ∅ |} in
  let ds1 := [(Formats.JsonReader, "json"); (Formats.XmlReader, "xml")] in
  let ds2 := [(Formats.XmlReader, "xml"); (Formats.JsonReader, "json")] in
  ds1 ≡ₚ ds2
  ∧ NoDup ds1.*2
  ∧ run id Formats.Reader ((fun d => call_ObjectFactoryRegister d.1 d.2) <$> ds1) w
    = run id Formats.Reader ((fun d => call_ObjectFactoryRegister d.1 d.2) <$> ds2) w.
Proof.
  intros w ds1 ds2.
  assert (Hp : ds1 ≡ₚ ds2) by apply perm_swap.
  assert (Hnd : NoDup ds1.*2) by (apply (bool_decide_unpack _); reflexivity).
  split; [exact Hp|]. split; [exact Hnd|].
  exact (token_order_is_irrelevant id Formats.Reader ds1 ds2 w Hp Hnd).
Defined.

Lemma token_order_decides_duplicates_Formats :
  let w : world Formats.class_name string :=
    {| this := ObjectFactory_new; store := ∅ |} in
  let A := Formats.JsonReader in
  let B := Formats.XmlReader in
  A ≠ B
  ∧ constructor A = constructs
  ∧ constructor B = constructs
  ∧ _objects (this w) !! "json" = None
  ∧ let AB := run id Formats.Reader
                [call_ObjectFactoryRegister A "json"; call_ObjectFactoryRegister B "json"] w in
    let BA := run id Formats.Reader
                [call_ObjectFactoryRegister B "json"; call_ObjectFactoryRegister A "json"] w in
    this AB ≠ this BA
    ∧ (∃ a, (Create id "json" AB).1 = Returned (Ptr a)
            ∧ store (Create id "json" AB).2 !! a = Some (Object A))
    ∧ (∃ a, (Create id "json" BA).1 = Returned (Ptr a)
            ∧ store (Create id "json" BA).2 !! a = Some (Object B)).
Proof.
  intros w A B. split; [discriminate|].
  split; [reflexivity|]. split; [reflexivity|]. split; [reflexivity|].
  apply (token_order_decides_duplicates id Formats.Reader w "json" A B);
    [discriminate|reflexivity|reflexivity|reflexivity].
Defined.


Lemma IsRegistered_predicts_Create_Formats :
  let w := Formats.readers in
  map_Forall (fun _ c => returns c) (_objects (this w))
  ∧ ((IsRegistered "json" w).1 = Returned true
       ↔ ∃ p, (Create id "json" w).1 = Returned p)
  ∧ ((IsRegistered "json" w).1 = Returned false
       ↔ ∃ e, (Create id "json" w).1 = Thrown e).
Proof.
  intros w.
  assert (H1 : map_Forall (fun _ c => returns c) (_objects (this w))).
  { unfold w, Formats.readers, Register_obj.
    apply (Register_map_Forall returns); [|by apply create_policy_new_returns].
    apply (Register_map_Forall returns); [|by apply create_policy_new_returns].
    apply map_Forall_empty. }
  split; [exact H1|].
  exact (IsRegistered_predicts_Create id w "json" H1).
Defined.

Lemma not_found_names_the_key_Formats :
  let e := runtime_error "factory key 7 not found." in
  let w1 := Formats.readers in
  let w2 : world Formats.class_name Z := {| this := ObjectFactory_new; store := ∅ |} in
  _objects (this w1) !! "7" = None
  ∧ _objects (this w2) !! 7%Z = None
  ∧ (Create id "7" w1).1 = Thrown e
  ∧ (Create pretty 7%Z w2).1 = Thrown e
  ∧ id "7" = pretty 7%Z.
Proof.
  intros e w1 w2.
  split; [reflexivity|]. split; [reflexivity|].
  split; [reflexivity|]. split; [reflexivity|].
  apply (not_found_names_the_key id pretty w1 w2 "7" 7%Z e); reflexivity.
Defined.

Lemma first_Instance_is_empty_Formats :
  let s : process Formats.class_name Formats.values := process_start Formats.values in
  let i := Formats.Readers in
  let key : Formats.values i.1 := "json" in
  statics Formats.values s i = None
  ∧ (at_Instance Formats.values i (IsRegistered key) s).1 = Returned false
  ∧ (at_Instance Formats.values i (Create (Formats.lexical_cast_of i.1) key) s).1
    = Thrown (runtime_error
                ("factory key " +:+ Formats.lexical_cast_of i.1 key +:+ " not found."))
  ∧ (at_Instance Formats.values i getObjects s).1 = Returned ∅
  ∧ statics Formats.values (at_Instance Formats.values i (IsRegistered key) s).2 i
    = Some ObjectFactory_new.
Proof.
  intros s i key. split; [reflexivity|].
  apply (first_Instance_is_empty Formats.values Formats.lexical_cast_of s i key).
  reflexivity.
Defined.

Lemma static_registration_is_permanent_Formats :
  let i := Formats.Readers in
  let key : Formats.values i.1 := "json" in
  let s : process Formats.class_name Formats.values :=
    (at_Instance Formats.values i (Register_obj Formats.Reader Formats.JsonReader key)
       (process_start Formats.values)).2 in
  (at_Instance Formats.values i (IsRegistered key) s).1 = Returned true
  ∧ ∀ rs,
      let s' := run_static Formats.values Formats.lexical_cast_of rs s in
      (at_Instance Formats.values i (IsRegistered key) s').1 = Returned true
      ∧ _objects (default ObjectFactory_new (statics Formats.values s' i)) !! key
        = _objects (default ObjectFactory_new (statics Formats.values s i)) !! key.
Proof.
  intros i key s. split; [reflexivity|].
  apply (static_registration_is_permanent Formats.values Formats.lexical_cast_of s i key).
  reflexivity.
Defined.


Lemma REGISTER_OBJECT_makes_creatable_Formats :
  let s : process Formats.class_name Formats.values := process_start Formats.values in
  let factory := Formats.Readers in
  let object := Formats.JsonReader in
  let key : Formats.values factory.1 := "json" in
  _objects (default ObjectFactory_new (statics Formats.values s factory)) !! key = None
  ∧ constructor object = constructs
  ∧ let s1 := (exec_static Formats.values Formats.lexical_cast_of
                 (REGISTER_OBJECT Formats.values factory object key) s).2 in
    let made := at_Instance Formats.values factory
                  (Create (Formats.lexical_cast_of factory.1) key) s1 in
    free_store Formats.values s1 = free_store Formats.values s
    ∧ (at_Instance Formats.values factory (IsRegistered key) s1).1 = Returned true
    ∧ ∃ a, made.1 = Returned (Ptr a)
           ∧ free_store Formats.values s !! a = None
           ∧ free_store Formats.values made.2 !! a = Some (Object object)
           ∧ (∀ a', a' ≠ a →
                free_store Formats.values made.2 !! a' = free_store Formats.values s !! a').
Proof.
  intros s factory object key. split; [reflexivity|]. split; [reflexivity|].
  apply (REGISTER_OBJECT_makes_creatable Formats.values Formats.lexical_cast_of
           s factory object key); reflexivity.
Defined.

Lemma initialisation_order_is_irrelevant_Formats :
  let s : process Formats.class_name Formats.values := process_start Formats.values in
  let json : declaration Formats.class_name Formats.values :=
    existT Formats.Readers (Formats.JsonReader, "json" : Formats.values Formats.std_string) in
  let csv : declaration Formats.class_name Formats.values :=
    existT Formats.Writers (Formats.CsvWriter, 7%Z : Formats.values Formats.int) in
  let ds1 := [json; csv] in
  let ds2 := [csv; json] in
  ds1 ≡ₚ ds2
  ∧ NoDup (place Formats.values <$> ds1)
  ∧ (∀ i, statics Formats.values (initialise Formats.values Formats.lexical_cast_of ds1 s) i
          = statics Formats.values (initialise Formats.values Formats.lexical_cast_of ds2 s) i)
  ∧ free_store Formats.values (initialise Formats.values Formats.lexical_cast_of ds1 s)
    = free_store Formats.values (initialise Formats.values Formats.lexical_cast_of ds2 s).
Proof.
  intros s json csv ds1 ds2.
  assert (Hp : ds1 ≡ₚ ds2) by apply perm_swap.
  assert (Hnd : NoDup (place Formats.values <$> ds1)).
  { apply NoDup_cons_2; [|apply NoDup_singleton].
    intros Hin. apply list_elem_of_singleton in Hin. by injection Hin. }
  split; [exact Hp|]. split; [exact Hnd|].
  exact (initialisation_order_is_irrelevant Formats.values Formats.lexical_cast_of
           ds1 ds2 s Hp Hnd).
Defined.
